(** * Otaku-flash: the cartridge-bus pin contract

    A shallow embedding of [src/pin_definitions.h] (the GPIO line assigned
    to every signal of the Atari 2600/7800 cartridge connector) together
    with the bulk masked I/O that the fixed pin positions exist to enable.

    Line indices and GPIO words are [Z]; bit [p] of a GPIO word is the
    level of physical line [p]. *)

From Stdlib Require Import ZArith List Lia Bool String.
Import ListNotations.
Local Open Scope Z_scope.

(** ** The header: one definition per [#define] *)

Module PinDefinitions.

(* Address pins. *)
Definition A0 : Z := 0.
Definition A1 : Z := 1.
Definition A2 : Z := 2.
Definition A3 : Z := 3.
Definition A4 : Z := 4.
Definition A5 : Z := 5.
Definition A6 : Z := 6.
Definition A7 : Z := 7.
Definition A8 : Z := 8.
Definition A9 : Z := 9.
Definition A10 : Z := 10.
Definition A11 : Z := 11.
Definition A12 : Z := 12.
Definition A13 : Z := 13.
Definition A14 : Z := 14.
Definition A15 : Z := 26.

(* Control pins. *)
Definition RW : Z := 25.
Definition HALT : Z := 27.

(* Data pins. *)
Definition D0 : Z := 15.
Definition D1 : Z := 16.
Definition D2 : Z := 17.
Definition D3 : Z := 18.
Definition D4 : Z := 19.
Definition D5 : Z := 20.
Definition D6 : Z := 21.
Definition D7 : Z := 22.

(** The three pin groups of the header, each in the order of its
    [#define] lines. *)
Definition address_pins : list Z :=
  [A0; A1; A2; A3; A4; A5; A6; A7; A8; A9; A10; A11; A12; A13; A14; A15].
Definition control_pins : list Z := [RW; HALT].
Definition data_pins : list Z := [D0; D1; D2; D3; D4; D5; D6; D7].

(** The sequential part of the address group, A0 to A14. *)
Definition low_address_pins : list Z := firstn 15 address_pins.

(** The header as a table: macro name and the literal it expands to, in
    file order. *)
Definition pin_table : list (string * Z) :=
  [ ("A0", A0); ("A1", A1); ("A2", A2); ("A3", A3); ("A4", A4);
    ("A5", A5); ("A6", A6); ("A7", A7); ("A8", A8); ("A9", A9);
    ("A10", A10); ("A11", A11); ("A12", A12); ("A13", A13);
    ("A14", A14); ("A15", A15);
    ("RW", RW); ("HALT", HALT);
    ("D0", D0); ("D1", D1); ("D2", D2); ("D3", D3); ("D4", D4);
    ("D5", D5); ("D6", D6); ("D7", D7) ]%string.

(** Every line the header assigns, group after group. *)
Definition all_pins : list Z := address_pins ++ control_pins ++ data_pins.

End PinDefinitions.
Export PinDefinitions.

(** ** Properties of lists of line indices *)

(** Each element is its predecessor plus one. *)
Definition contiguous (l : list Z) : Prop :=
  forall i, (S i < List.length l)%nat -> nth (S i) l 0 = nth i l 0 + 1.

(** No line of [l1] is a line of [l2]. *)
Definition disjoint (l1 l2 : list Z) : Prop :=
  forall p, In p l1 -> In p l2 -> False.

(** Executable counterparts. *)
Fixpoint ascending (l : list Z) : bool :=
  match l with
  | x :: t =>
      match t with
      | y :: _ => (y =? x + 1) && ascending t
      | [] => true
      end
  | [] => true
  end.

Fixpoint distinct (l : list Z) : bool :=
  match l with
  | [] => true
  | x :: t => negb (existsb (Z.eqb x) t) && distinct t
  end.

Definition apart (l1 l2 : list Z) : bool :=
  forallb (fun p => negb (existsb (Z.eqb p) l2)) l1.

(** Consecutive integers [lo, lo+1, ..., lo+n-1]. *)
Fixpoint zseq (lo : Z) (n : nat) : list Z :=
  match n with
  | O => []
  | S k => lo :: zseq (lo + 1) k
  end.

(** The lines of the header that are in neither sequential group. *)
Definition outside_sequential_groups : list Z :=
  filter (fun p => negb (existsb (Z.eqb p) (low_address_pins ++ data_pins)))
         all_pins.

(** ** The header as a build step *)

Module HeaderBuild.

(** An assignment of a physical line to each of the 26 signals, in the
    three groups the header names (address pins A0-A15, control pins RW
    and HALT, data pins D0-D7). *)
Record PinMapping : Type := {
  Address : list Z;
  Control_RW : Z;
  Control_HALT : Z;
  Data : list Z
}.

(** The lines of a mapping in the order of the header's [#define]s. *)
Definition lines (m : PinMapping) : list Z :=
  Address m ++ [Control_RW m; Control_HALT m] ++ Data m.

(** The mapping the header fixes. *)
Definition header : PinMapping := {|
  Address := address_pins;
  Control_RW := RW;
  Control_HALT := HALT;
  Data := data_pins
|}.

(** What a header can hold: a macro definition, or a condition on the
    macros defined so far that stops the build when it is false (an
    [#if ... #error] block or a static assertion). *)
Inductive directive : Type :=
| define (name : string) (value : Z)
| build_assert (holds : list (string * Z) -> bool).

Definition is_define (d : directive) : bool :=
  match d with
  | define _ _ => true
  | build_assert _ => false
  end.

(** Building a header: the macros it defines, or nothing when one of its
    assertions fails. *)
Fixpoint build (ds : list directive) (env : list (string * Z))
  : option (list (string * Z)) :=
  match ds with
  | [] => Some env
  | define name value :: rest => build rest (env ++ [(name, value)])
  | build_assert holds :: rest => if holds env then build rest env else None
  end.

(** src/pin_definitions.h, directive by directive: 26 [#define] lines and
    nothing else. *)
Definition pin_definitions_h : list directive :=
  [ define "A0" 0; define "A1" 1; define "A2" 2; define "A3" 3;
    define "A4" 4; define "A5" 5; define "A6" 6; define "A7" 7;
    define "A8" 8; define "A9" 9; define "A10" 10; define "A11" 11;
    define "A12" 12; define "A13" 13; define "A14" 14; define "A15" 26;
    define "RW" 25; define "HALT" 27;
    define "D0" 15; define "D1" 16; define "D2" 17; define "D3" 18;
    define "D4" 19; define "D5" 20; define "D6" 21; define "D7" 22 ]%string.

(** The same header with the lines of another mapping as its literals:
    the configurations a changed pinout would be built from. *)
Definition table_of (m : PinMapping) : list (string * Z) :=
  combine (map fst pin_table) (lines m).

Definition header_text (m : PinMapping) : list directive :=
  map (fun e => define (fst e) (snd e)) (table_of m).

(** The structural invariants of a pinout, as a check that can be run:
    group sizes, Address[0..14] ascending by one, Data[0..7] ascending by
    one, no line used twice. *)
Definition valid (m : PinMapping) : bool :=
  (List.length (Address m) =? 16)%nat
  && (List.length (Data m) =? 8)%nat
  && ascending (firstn 15 (Address m))
  && ascending (Data m)
  && distinct (lines m).

(** The two ways a mapping breaks them that the fast path cannot
    tolerate. *)
Definition collides (m : PinMapping) : Prop :=
  exists i j, (i < j < List.length (lines m))%nat
              /\ nth i (lines m) 0 = nth j (lines m) 0.

Definition address_not_contiguous (m : PinMapping) : Prop :=
  exists i, (i < 14)%nat
            /\ nth (S i) (Address m) 0 <> nth i (Address m) 0 + 1.

(** The header with RW moved onto the line of A15. *)
Definition rw_on_a15 : PinMapping := {|
  Address := address_pins;
  Control_RW := A15;
  Control_HALT := HALT;
  Data := data_pins
|}.

End HeaderBuild.
Export HeaderBuild.

(** ** PinMap: the derived masks *)

Module PinMap.

(** Modelled from the spec: a derived mask, the GPIO word with exactly
    the bits of the given lines set. The header under src/ defines no
    mask. *)
Definition mask_of (l : list Z) : Z :=
  fold_right (fun p m => Z.lor (Z.shiftl 1 p) m) 0 l.

(** Modelled from the spec: AddressMask covers the 15 contiguous address
    lines and DataMask the 8 data lines; both are derived from the
    header's constants. *)
Definition AddressMask : Z := mask_of low_address_pins.
Definition DataMask : Z := mask_of data_pins.

End PinMap.
Export PinMap.

(** ** BusSampler: the address currently asserted by the console *)

Module BusSampler.

(** Modelled from the spec: an individual read of one physical line of
    the bulk input word. No sampling code is under src/. *)
Definition read_line (w : Z) (p : Z) : bool := Z.testbit w p.

(** Modelled from the spec: the address part of sample(), one masked
    shift for the 15 contiguous bits and one individual read for the
    16th, combined into one value. *)
Definition sample_address (w : Z) : Z :=
  Z.lor (Z.shiftr (Z.land w AddressMask) A0)
        (Z.shiftl (Z.b2z (read_line w A15)) 15).

(** Modelled from the spec: the design sample() replaces, an individual
    read per address line, line [i] of the group giving bit [i]. *)
Fixpoint assemble (w : Z) (pins : list Z) (i : Z) : Z :=
  match pins with
  | [] => 0
  | p :: t => Z.lor (Z.shiftl (Z.b2z (read_line w p)) i) (assemble w t (i + 1))
  end.

(** Modelled from the spec: the 16 individual reads of A0..A15. *)
Definition sample_address_per_line (w : Z) : Z :=
  assemble w address_pins 0.

End BusSampler.
Export BusSampler.

(** ** BusDriver: presenting a byte on the data lines *)

Module BusDriver.

(** Modelled from the spec: the physical lines as the driver sees them.
    [out] is the output latch, [dir] has a bit set for every line
    configured as output, [ext] is the level other devices put on each
    line. No driver code is under src/. *)
Record Lines : Type := {
  out : Z;
  dir : Z;
  ext : Z
}.

(** Modelled from the spec: a bulk masked write; only the bits of
    [mask] take the bits of [value]. *)
Definition masked_write (o mask value : Z) : Z :=
  Z.lor (Z.land o (Z.lnot mask)) (Z.land value mask).

(** Modelled from the spec: the simulated bulk read of all 32 lines; an
    output line reads back its latch, any other line its external
    level. *)
Definition bulk_read (s : Lines) : Z :=
  Z.land (Z.lor (Z.land (out s) (dir s)) (Z.land (ext s) (Z.lnot (dir s))))
         (Z.ones 32).

(** Modelled from the spec: drive(byte). *)
Definition drive (b : Z) (s : Lines) : Lines := {|
  out := masked_write (out s) DataMask (Z.shiftl b D0);
  dir := Z.lor (dir s) DataMask;
  ext := ext s
|}.

(** Modelled from the spec: release(). *)
Definition release (s : Lines) : Lines := {|
  out := out s;
  dir := Z.land (dir s) (Z.lnot DataMask);
  ext := ext s
|}.

(** Modelled from the spec: the byte a simulated bulk read finds on the
    data line positions. *)
Definition read_data (s : Lines) : Z :=
  Z.shiftr (Z.land (bulk_read s) DataMask) D0.

End BusDriver.
Export BusDriver.

(** ** The header's opening comment *)

Module HeaderComment.

(** The pin groups as the comment at the top of the header documents
    them, each a list of GPIO ranges with both ends included:
    "Address pins (A0-A15): GPIO 0-14, 26", "Control pins (RW, HALT):
    GPIO 25, 27", "Data pins (D0-D7): GPIO 15-22". *)
Definition documented_address : list (Z * Z) := [(0, 14); (26, 26)].
Definition documented_control : list (Z * Z) := [(25, 25); (27, 27)].
Definition documented_data : list (Z * Z) := [(15, 22)].

(** Line [p] lies in one of the ranges. *)
Definition in_ranges (p : Z) (ranges : list (Z * Z)) : bool :=
  existsb (fun r => (fst r <=? p) && (p <=? snd r)) ranges.

End HeaderComment.
Export HeaderComment.

(** * Proofs *)

(** Case analysis on every integer comparison of the goal. *)
Ltac zcases :=
  repeat match goal with
         | |- context [(?a <=? ?b)%Z] => destruct (Z.leb_spec a b)
         | |- context [(?a <? ?b)%Z] => destruct (Z.ltb_spec a b)
         | |- context [(?a =? ?b)%Z] => destruct (Z.eqb_spec a b)
         end;
  simpl; try reflexivity; try lia.

(** ** Lists of line indices *)

Section LineLists.

Lemma ascending_cons2 (x y : Z) (t : list Z) :
  ascending (x :: y :: t) = (y =? x + 1) && ascending (y :: t).
Proof. reflexivity. Qed.

Lemma ascending_contiguous (l : list Z) :
  ascending l = true <-> contiguous l.
Proof.
  unfold contiguous.
  induction l as [|x t IH].
  - split; [intros _ i Hi; simpl in Hi; lia | reflexivity].
  - destruct t as [|y t'].
    + split; [intros _ i Hi; simpl in Hi; lia | reflexivity].
    + rewrite ascending_cons2, andb_true_iff, Z.eqb_eq, IH.
      split.
      * intros [Hy Ht] [|i] Hi; [exact Hy|].
        apply (Ht i). simpl in Hi |- *. lia.
      * intros H. split.
        -- apply (H 0%nat). simpl. lia.
        -- intros i Hi. apply (H (S i)). simpl in Hi |- *. lia.
Qed.

Lemma existsb_eqb_In (p : Z) (l : list Z) :
  existsb (Z.eqb p) l = true <-> In p l.
Proof.
  rewrite existsb_exists. split.
  - intros [q [Hq Heq]]. apply Z.eqb_eq in Heq. now subst.
  - intros H. exists p. split; [exact H | apply Z.eqb_refl].
Qed.

Lemma distinct_NoDup (l : list Z) : distinct l = true <-> NoDup l.
Proof.
  induction l as [|x t IH]; simpl.
  - split; [constructor | reflexivity].
  - rewrite andb_true_iff, negb_true_iff, IH, <- not_true_iff_false,
      existsb_eqb_In.
    split.
    + intros [Hx Ht]. now constructor.
    + intros H. inversion H; subst. now split.
Qed.

Lemma apart_disjoint (l1 l2 : list Z) :
  apart l1 l2 = true <-> disjoint l1 l2.
Proof.
  unfold apart, disjoint. rewrite forallb_forall. split.
  - intros H p H1 H2. specialize (H p H1).
    apply negb_true_iff in H. apply existsb_eqb_In in H2. congruence.
  - intros H p H1. apply negb_true_iff, not_true_iff_false.
    rewrite existsb_eqb_In. exact (H p H1).
Qed.

Lemma nth_zseq (n : nat) : forall (lo : Z) (i : nat),
  (i < n)%nat -> nth i (zseq lo n) 0 = lo + Z.of_nat i.
Proof.
  induction n as [|n IH]; intros lo i Hi; [lia|].
  destruct i as [|i]; simpl zseq; cbn [nth].
  - lia.
  - rewrite IH by lia. lia.
Qed.

Lemma In_zseq (n : nat) : forall (lo p : Z),
  In p (zseq lo n) <-> lo <= p < lo + Z.of_nat n.
Proof.
  induction n as [|n IH]; intros lo p; simpl zseq.
  - simpl. lia.
  - cbn [In]. rewrite IH. lia.
Qed.

Lemma low_address_pins_zseq : low_address_pins = zseq 0 15.
Proof. reflexivity. Qed.

Lemma data_pins_zseq : data_pins = zseq 15 8.
Proof. reflexivity. Qed.

Lemma address_pins_split : address_pins = low_address_pins ++ [A15].
Proof. reflexivity. Qed.

Lemma nth_address_low (i : nat) :
  (i < 15)%nat -> nth i address_pins 0 = Z.of_nat i.
Proof.
  intros Hi. rewrite address_pins_split, app_nth1 by (simpl; lia).
  rewrite low_address_pins_zseq, nth_zseq by lia. lia.
Qed.

Lemma nth_data (i : nat) :
  (i < 8)%nat -> nth i data_pins 0 = 15 + Z.of_nat i.
Proof.
  intros Hi. rewrite data_pins_zseq. now apply nth_zseq.
Qed.

End LineLists.

(** ** Bits of GPIO words *)

Section Bits.

Lemma testbit_small (b n k : Z) :
  0 <= b < 2 ^ k -> 0 <= k <= n -> Z.testbit b n = false.
Proof.
  intros Hb Hk.
  rewrite <- (Z.mod_small b (2 ^ k)) by exact Hb.
  apply Z.mod_pow2_bits_high. exact Hk.
Qed.

Lemma testbit_b2z (c : bool) (n : Z) :
  Z.testbit (Z.b2z c) n = c && (n =? 0).
Proof.
  destruct c; simpl Z.b2z.
  - destruct (Z.eqb_spec n 0) as [->|Hn]; [reflexivity|].
    destruct n; try reflexivity; congruence.
  - apply Z.bits_0.
Qed.

Lemma testbit_line (q p : Z) :
  0 <= p -> Z.testbit (Z.shiftl 1 q) p = (p =? q).
Proof.
  intros Hp. rewrite Z.shiftl_spec by exact Hp.
  change 1 with (Z.b2z true). rewrite testbit_b2z. simpl andb.
  destruct (Z.eqb_spec (p - q) 0), (Z.eqb_spec p q); try reflexivity; lia.
Qed.

Lemma mask_of_spec (l : list Z) (p : Z) :
  0 <= p -> Z.testbit (mask_of l) p = existsb (Z.eqb p) l.
Proof.
  intros Hp. induction l as [|q t IH]; simpl.
  - apply Z.bits_0.
  - now rewrite Z.lor_spec, testbit_line, IH.
Qed.

End Bits.

(** ** The header's constants *)

Section HeaderLayout.

(** C1: the lines of A0 to A14 form the ascending range that starts at
    line 0 (A0 = 0 and each of A1..A14 is its predecessor plus one), so
    for every bulk input word [w] the single masked read
    [w land (2^15 - 1)] is a 15-bit value whose bit [i] is the level of
    the line of address signal [i], for every [i] from 0 to 14. *)
Theorem address_lines_contiguous :
  A0 = 0
  /\ (forall i, (i < 14)%nat ->
        nth (S i) address_pins 0 = nth i address_pins 0 + 1)
  /\ (forall (w : Z) (i : nat), (i < 15)%nat ->
        Z.testbit (Z.land w (Z.ones 15)) (Z.of_nat i)
        = Z.testbit w (nth i address_pins 0))
  /\ (forall w : Z, 0 <= Z.land w (Z.ones 15) < 2 ^ 15).
Proof.
  split; [reflexivity|]. split; [|split].
  - intros i Hi. rewrite !nth_address_low by lia. lia.
  - intros w i Hi. rewrite nth_address_low by exact Hi.
    rewrite Z.land_spec, Z.ones_spec_low by lia. apply andb_true_r.
  - intros w. rewrite Z.land_ones by lia.
    apply Z.mod_pos_bound. lia.
Qed.

Lemma address_lines_contiguous_witness :
  (3 < 14)%nat
  /\ nth 4 address_pins 0 = nth 3 address_pins 0 + 1
  /\ Z.testbit (Z.land 40 (Z.ones 15)) 3 = Z.testbit 40 (nth 3 address_pins 0).
Proof.
  split; [lia|]. split.
  - apply (proj1 (proj2 address_lines_contiguous) 3%nat). lia.
  - apply (proj1 (proj2 (proj2 address_lines_contiguous)) 40 3%nat). lia.
Defined.

(** C2: the lines of D0 to D7 form an ascending range (each of D1..D7 is
    its predecessor plus one), so one masked write, which replaces
    the bits of the mask [(2^8 - 1) << D0] in the output word by those of
    [b << D0], puts bit [i] of [b] on the line of data signal [i] for all
    eight [i] at once. *)
Theorem data_lines_contiguous :
  (forall i, (i < 7)%nat ->
     nth (S i) data_pins 0 = nth i data_pins 0 + 1)
  /\ (forall (o b : Z) (i : nat), (i < 8)%nat ->
        let m := Z.shiftl (Z.ones 8) D0 in
        Z.testbit (Z.lor (Z.land o (Z.lnot m)) (Z.land (Z.shiftl b D0) m))
                  (nth i data_pins 0)
        = Z.testbit b (Z.of_nat i)).
Proof.
  split.
  - intros i Hi. rewrite !nth_data by lia. lia.
  - intros o b i Hi m. subst m. rewrite nth_data by exact Hi.
    unfold D0.
    rewrite Z.lor_spec, !Z.land_spec, Z.lnot_spec, !Z.shiftl_spec by lia.
    replace (15 + Z.of_nat i - 15) with (Z.of_nat i) by lia.
    rewrite Z.ones_spec_low by lia.
    simpl negb. now rewrite andb_false_r, andb_true_r.
Qed.

Lemma data_lines_contiguous_witness :
  (2 < 7)%nat
  /\ nth 3 data_pins 0 = nth 2 data_pins 0 + 1
  /\ Z.testbit (Z.lor (Z.land 0 (Z.lnot (Z.shiftl (Z.ones 8) D0)))
                      (Z.land (Z.shiftl 165 D0) (Z.shiftl (Z.ones 8) D0)))
               (nth 2 data_pins 0)
     = Z.testbit 165 2.
Proof.
  split; [lia|]. split.
  - apply (proj1 data_lines_contiguous 2%nat). lia.
  - apply (proj2 data_lines_contiguous 0 165 2%nat). lia.
Defined.

(** C3: no line is used twice. Inside each of the groups Address
    (A0..A15), Control (RW, HALT) and Data (D0..D7) the line indices are
    distinct, and no line of one group is a line of another. *)
Theorem pin_groups_disjoint :
  NoDup address_pins /\ NoDup control_pins /\ NoDup data_pins
  /\ disjoint address_pins control_pins
  /\ disjoint address_pins data_pins
  /\ disjoint control_pins data_pins.
Proof.
  repeat split;
    first [ apply distinct_NoDup; reflexivity
          | apply apart_disjoint; reflexivity ].
Qed.

End HeaderLayout.

Section HeaderShape.

(** C8: the header maps 26 signals to 26 distinct physical lines, in
    three groups that partition the table: 16 address lines, then 2
    control lines, then 8 data lines. Every entry is a literal of the
    header, so the mapping is one fixed table, the one a build of the
    header yields. *)
Theorem pin_contract_shape :
  build pin_definitions_h [] = Some pin_table
  /\ List.length pin_table = 26%nat
  /\ NoDup (map fst pin_table)
  /\ NoDup (map snd pin_table)
  /\ map snd pin_table = address_pins ++ control_pins ++ data_pins
  /\ List.length address_pins = 16%nat
  /\ List.length control_pins = 2%nat
  /\ List.length data_pins = 8%nat
  /\ pin_table =
     [ ("A0", 0); ("A1", 1); ("A2", 2); ("A3", 3); ("A4", 4); ("A5", 5);
       ("A6", 6); ("A7", 7); ("A8", 8); ("A9", 9); ("A10", 10);
       ("A11", 11); ("A12", 12); ("A13", 13); ("A14", 14); ("A15", 26);
       ("RW", 25); ("HALT", 27);
       ("D0", 15); ("D1", 16); ("D2", 17); ("D3", 18); ("D4", 19);
       ("D5", 20); ("D6", 21); ("D7", 22) ]%string.
Proof.
  split; [reflexivity|]. split; [reflexivity|]. split; [|split].
  - apply (NoDup_count_occ string_dec). intros x.
    destruct (in_dec string_dec x (map fst pin_table)) as [Hin|Hout].
    + simpl in Hin.
      repeat (destruct Hin as [<-|Hin]; [vm_compute; lia|]).
      destruct Hin.
    + apply (count_occ_not_In string_dec) in Hout. lia.
  - apply distinct_NoDup. reflexivity.
  - repeat split.
Qed.

End HeaderShape.

Section HeaderSpan.

(** C9: the data group starts on the line after A14 (D0 = A14 + 1 = 15),
    so A0..A14 followed by D0..D7 are exactly the lines 0 to 22, and a
    data byte is placed in the GPIO word by a left shift of 15, the value
    of D0: that shift puts bit [i] of the byte on the line of data
    signal [i], and no other shift puts bit 0 on line D0. *)
Theorem data_group_follows_address_range :
  D0 = A14 + 1
  /\ D0 = 15
  /\ low_address_pins ++ data_pins = zseq 0 23
  /\ (forall p, In p (low_address_pins ++ data_pins) <-> 0 <= p <= 22)
  /\ (forall (b : Z) (i : nat), (i < 8)%nat ->
        Z.testbit (Z.shiftl b 15) (nth i data_pins 0)
        = Z.testbit b (Z.of_nat i))
  /\ (forall s : Z,
        (forall b : Z, Z.testbit (Z.shiftl b s) D0 = Z.testbit b 0)
        <-> s = 15).
Proof.
  split; [reflexivity|]. split; [reflexivity|]. split; [reflexivity|].
  split; [|split].
  - intros p. change (low_address_pins ++ data_pins) with (zseq 0 23).
    rewrite In_zseq. lia.
  - intros b i Hi. rewrite nth_data by exact Hi.
    rewrite Z.shiftl_spec by lia. f_equal. lia.
  - intros s. unfold D0. split.
    + intros H. specialize (H 1).
      rewrite testbit_line in H by lia.
      change (Z.testbit 1 0) with true in H.
      apply Z.eqb_eq in H. lia.
    + intros -> b. rewrite Z.shiftl_spec by lia. reflexivity.
Qed.

Lemma data_group_follows_address_range_witness :
  (5 < 8)%nat
  /\ Z.testbit (Z.shiftl 165 15) (nth 5 data_pins 0) = Z.testbit 165 5.
Proof.
  split; [lia|].
  apply (proj1 (proj2 (proj2 (proj2 (proj2
           data_group_follows_address_range)))) 165 5%nat).
  lia.
Defined.

(** C10: every pin constant is between 0 and 27, and the three lines that
    are in neither sequential group are exactly the block 25, 26, 27, with
    A15 = 26 between RW = 25 and HALT = 27. *)
Theorem pins_within_gpio_range :
  Forall (fun p => 0 <= p <= 27) all_pins
  /\ outside_sequential_groups = [A15; RW; HALT]
  /\ (forall p, In p outside_sequential_groups <-> 25 <= p <= 27)
  /\ RW = 25 /\ A15 = 26 /\ HALT = 27
  /\ A15 = RW + 1 /\ HALT = A15 + 1.
Proof.
  split; [|split; [reflexivity|split; [|repeat split]]].
  - apply Forall_forall. intros p Hp. simpl in Hp.
    repeat (destruct Hp as [<-|Hp]; [vm_compute; split; congruence|]).
    destruct Hp.
  - intros p.
    change outside_sequential_groups with [26; 25; 27].
    simpl. lia.
Qed.

End HeaderSpan.

(** ** The derived masks *)

Section Masks.

Lemma AddressMask_ones : AddressMask = Z.ones 15.
Proof. reflexivity. Qed.

Lemma DataMask_ones : DataMask = Z.shiftl (Z.ones 8) 15.
Proof. reflexivity. Qed.

Lemma AddressMask_bits (p : Z) :
  Z.testbit AddressMask p = (0 <=? p) && (p <? 15).
Proof. rewrite AddressMask_ones. apply Z.testbit_ones. lia. Qed.

Lemma DataMask_bits (p : Z) :
  Z.testbit DataMask p = (15 <=? p) && (p <? 23).
Proof.
  destruct (Z.lt_ge_cases p 0) as [Hp|Hp].
  - rewrite Z.testbit_neg_r by exact Hp. zcases.
  - rewrite DataMask_ones, Z.shiftl_spec, Z.testbit_ones by lia. zcases.
Qed.

Lemma mask_of_In (l : list Z) (p : Z) :
  Forall (fun q => 0 <= q) l ->
  (Z.testbit (mask_of l) p = true <-> In p l).
Proof.
  intros Hl. destruct (Z.lt_ge_cases p 0) as [Hp|Hp].
  - rewrite Z.testbit_neg_r by exact Hp. split; [discriminate|].
    intros Hin. rewrite Forall_forall in Hl. specialize (Hl p Hin). lia.
  - rewrite mask_of_spec by exact Hp. apply existsb_eqb_In.
Qed.

(** C6: the masks derived from the pin constants cover exactly their
    groups. Bit [p] of AddressMask is set exactly when [p] is one of the
    lines A0..A14, so AddressMask = 0x00007FFF; bit [p] of DataMask is set
    exactly when [p] is one of the lines D0..D7, so DataMask = 0x007F8000;
    the masks share no bit, and neither has the bit of A15, RW or HALT. *)
Theorem masks_cover_their_groups :
  (forall p, Z.testbit AddressMask p = true <-> In p low_address_pins)
  /\ AddressMask = 0x00007FFF
  /\ (forall p, Z.testbit DataMask p = true <-> In p data_pins)
  /\ DataMask = 0x007F8000
  /\ Z.land AddressMask DataMask = 0
  /\ Forall (fun q => Z.testbit AddressMask q = false
                      /\ Z.testbit DataMask q = false) [A15; RW; HALT].
Proof.
  split; [|split; [reflexivity|split; [|split; [reflexivity|]]]].
  - intros p. apply mask_of_In.
    rewrite low_address_pins_zseq, Forall_forall.
    intros q Hq. apply In_zseq in Hq. lia.
  - intros p. apply mask_of_In.
    rewrite data_pins_zseq, Forall_forall.
    intros q Hq. apply In_zseq in Hq. lia.
  - split.
    + apply Z.bits_inj'. intros n Hn.
      rewrite Z.land_spec, AddressMask_bits, DataMask_bits, Z.bits_0.
      zcases.
    + repeat constructor;
        rewrite ?AddressMask_bits, ?DataMask_bits; reflexivity.
Qed.

End Masks.

(** ** BusSampler *)

Section Sampling.

Lemma sample_address_bits (w n : Z) :
  0 <= n ->
  Z.testbit (sample_address w) n
  = if n <? 15 then Z.testbit w n else (n =? 15) && Z.testbit w A15.
Proof.
  intros Hn. unfold sample_address, read_line, A0.
  rewrite Z.lor_spec, Z.shiftr_spec, Z.land_spec, Z.shiftl_spec,
    testbit_b2z, AddressMask_bits, Z.add_0_r by lia.
  destruct (Z.testbit w n), (Z.testbit w A15); zcases.
Qed.

Lemma assemble_bits (w : Z) (pins : list Z) : forall i n : Z,
  0 <= i -> 0 <= n ->
  Z.testbit (assemble w pins i) n
  = (i <=? n) && (n <? i + Z.of_nat (List.length pins))
    && Z.testbit w (nth (Z.to_nat (n - i)) pins 0).
Proof.
  induction pins as [|p t IH]; intros i n Hi Hn; cbn [assemble List.length].
  - rewrite Z.bits_0. zcases.
  - rewrite Z.lor_spec, Z.shiftl_spec, testbit_b2z, IH by lia.
    unfold read_line.
    destruct (Z.eq_dec n i) as [->|Hne].
    + rewrite Z.sub_diag. cbn [Z.to_nat nth].
      destruct (Z.testbit w p); zcases.
    + destruct (Z.lt_ge_cases n i) as [Hlt|Hge].
      * zcases.
      * replace (Z.to_nat (n - i)) with (S (Z.to_nat (n - (i + 1)))) by lia.
        cbn [nth].
        destruct (Z.testbit w p); zcases.
Qed.

Lemma sample_address_per_line_bits (w n : Z) :
  0 <= n ->
  Z.testbit (sample_address_per_line w) n
  = if n <? 15 then Z.testbit w n else (n =? 15) && Z.testbit w A15.
Proof.
  intros Hn. unfold sample_address_per_line.
  rewrite assemble_bits, Z.sub_0_r by lia.
  change (List.length address_pins) with 16%nat.
  destruct (Z.ltb_spec n 15) as [Hlo|Hhi].
  - rewrite nth_address_low, Z2Nat.id by lia. zcases.
  - destruct (Z.eqb_spec n 15) as [->|Hne].
    + reflexivity.
    + zcases.
Qed.

(** C4: for every 32-bit bulk snapshot word, the address obtained by one
    masked shift through AddressMask for bits 0 to 14 combined with the
    individually read A15 line (line 26) as bit 15 is the same 16-bit
    value as the one assembled from 16 individual reads of the lines
    A0..A15; the line of A15 does not follow the line of A14. *)
Theorem bulk_sample_matches_per_line (w : Z) :
  0 <= w < 2 ^ 32 ->
  sample_address w = sample_address_per_line w
  /\ 0 <= sample_address w < 2 ^ 16
  /\ A15 = 26 /\ A15 <> A14 + 1.
Proof.
  intros Hw. split; [|split; [|split; [reflexivity|discriminate]]].
  - apply Z.bits_inj'. intros n Hn.
    now rewrite sample_address_bits, sample_address_per_line_bits.
  - assert (H16 : sample_address w = Z.land (sample_address w) (Z.ones 16)).
    { apply Z.bits_inj'. intros n Hn.
      rewrite Z.land_spec, Z.testbit_ones, sample_address_bits by lia.
      destruct (Z.testbit w n), (Z.testbit w A15); zcases. }
    rewrite H16, Z.land_ones by lia.
    apply Z.mod_pos_bound. lia.
Qed.

Lemma bulk_sample_matches_per_line_witness :
  0 <= 0x04001234 < 2 ^ 32
  /\ sample_address 0x04001234 = sample_address_per_line 0x04001234
  /\ sample_address 0x04001234 = 0x9234.
Proof.
  split; [lia|]. split.
  - apply (bulk_sample_matches_per_line 0x04001234). lia.
  - reflexivity.
Defined.

End Sampling.

(** ** BusDriver *)

Section Driving.

Lemma In_data_pins (p : Z) : In p data_pins <-> 15 <= p < 23.
Proof. rewrite data_pins_zseq, In_zseq. lia. Qed.

Lemma address_control_not_data :
  disjoint (address_pins ++ control_pins) data_pins.
Proof. apply apart_disjoint. reflexivity. Qed.

Lemma bulk_read_bits (s : Lines) (p : Z) :
  Z.testbit (bulk_read s) p
  = (if Z.testbit (dir s) p then Z.testbit (out s) p
     else Z.testbit (ext s) p)
    && (0 <=? p) && (p <? 32).
Proof.
  destruct (Z.lt_ge_cases p 0) as [Hp|Hp].
  - rewrite Z.testbit_neg_r by exact Hp.
    destruct (Z.leb_spec 0 p); [lia|].
    now rewrite andb_false_r.
  - unfold bulk_read.
    rewrite Z.land_spec, Z.lor_spec, !Z.land_spec, Z.lnot_spec,
      Z.testbit_ones by lia.
    destruct (Z.testbit (dir s) p), (Z.testbit (out s) p),
      (Z.testbit (ext s) p); zcases.
Qed.

Lemma drive_out_bits (b : Z) (s : Lines) (p : Z) :
  0 <= p ->
  Z.testbit (out (drive b s)) p
  = if (15 <=? p) && (p <? 23) then Z.testbit b (p - 15)
    else Z.testbit (out s) p.
Proof.
  intros Hp. unfold drive, masked_write, D0. cbn [out].
  rewrite Z.lor_spec, !Z.land_spec, Z.lnot_spec, Z.shiftl_spec,
    DataMask_bits by lia.
  destruct (Z.testbit (out s) p), (Z.testbit b (p - 15)); zcases.
Qed.

Lemma drive_dir_bits (b : Z) (s : Lines) (p : Z) :
  Z.testbit (dir (drive b s)) p
  = ((15 <=? p) && (p <? 23)) || Z.testbit (dir s) p.
Proof.
  unfold drive. cbn [dir].
  rewrite Z.lor_spec, DataMask_bits. apply orb_comm.
Qed.

(** C5: for every byte [b], a bulk read taken after drive(b) shows exactly
    [b] on the data line positions, and the write touches nothing else:
    every line outside the data group, in particular every address and
    control line, reads as before, and outside DataMask the output latch
    and the direction of the lines are unchanged. *)
Theorem drive_then_read (s : Lines) (b : Z) :
  0 <= b < 256 ->
  read_data (drive b s) = b
  /\ (forall p, ~ In p data_pins ->
        Z.testbit (bulk_read (drive b s)) p = Z.testbit (bulk_read s) p)
  /\ (forall p, In p (address_pins ++ control_pins) ->
        Z.testbit (bulk_read (drive b s)) p = Z.testbit (bulk_read s) p)
  /\ Z.land (out (drive b s)) (Z.lnot DataMask)
     = Z.land (out s) (Z.lnot DataMask)
  /\ Z.land (dir (drive b s)) (Z.lnot DataMask)
     = Z.land (dir s) (Z.lnot DataMask).
Proof.
  intros Hb.
  assert (Hframe : forall p, ~ In p data_pins ->
    Z.testbit (bulk_read (drive b s)) p = Z.testbit (bulk_read s) p).
  { intros p Hp. rewrite In_data_pins in Hp.
    destruct (Z.lt_ge_cases p 0) as [Hneg|Hpos].
    - now rewrite !Z.testbit_neg_r.
    - rewrite !bulk_read_bits, drive_dir_bits, drive_out_bits by lia.
      cbn [ext drive].
      assert (Hm : (15 <=? p) && (p <? 23) = false) by zcases.
      now rewrite Hm. }
  split; [|split; [exact Hframe|split; [|split]]].
  - apply Z.bits_inj'. intros n Hn. unfold read_data, D0.
    rewrite Z.shiftr_spec, Z.land_spec, bulk_read_bits, DataMask_bits,
      drive_dir_bits, drive_out_bits by lia.
    replace (n + 15 - 15) with n by lia.
    destruct (Z.ltb_spec n 8) as [Hlo|Hhi].
    + destruct (Z.testbit b n), (Z.testbit (dir s) (n + 15)); zcases.
    + rewrite (testbit_small b n 8) by lia.
      rewrite <- andb_assoc.
      assert (Hm : (15 <=? n + 15) && (n + 15 <? 23) = false) by zcases.
      rewrite Hm, !andb_false_r. reflexivity.
  - intros p Hp. apply Hframe. intros Hd.
    exact (address_control_not_data p Hp Hd).
  - apply Z.bits_inj'. intros n Hn.
    rewrite !Z.land_spec, Z.lnot_spec, DataMask_bits, drive_out_bits by lia.
    destruct (Z.testbit (out s) n), (Z.testbit b (n - 15)); zcases.
  - apply Z.bits_inj'. intros n Hn.
    rewrite !Z.land_spec, Z.lnot_spec, DataMask_bits, drive_dir_bits by lia.
    destruct (Z.testbit (dir s) n); zcases.
Qed.

Lemma drive_then_read_witness :
  0 <= 0xA5 < 256
  /\ read_data (drive 0xA5 {| out := 0x00FFFFFF; dir := 0;
                              ext := 0x0C001234 |}) = 0xA5.
Proof.
  split; [lia|].
  apply (proj1 (drive_then_read
                  {| out := 0x00FFFFFF; dir := 0; ext := 0x0C001234 |}
                  0xA5 ltac:(lia))).
Defined.

(** After release() a bulk read of a data line shows the level another
    device puts on it, whatever was driven before. *)
Lemma release_then_read (s : Lines) (p : Z) :
  In p data_pins ->
  Z.testbit (bulk_read (release s)) p = Z.testbit (ext s) p.
Proof.
  intros Hp. apply In_data_pins in Hp.
  rewrite bulk_read_bits. unfold release. cbn [dir out ext].
  rewrite Z.land_spec, Z.lnot_spec, DataMask_bits by lia.
  destruct (Z.testbit (dir s) p), (Z.testbit (ext s) p); zcases.
Qed.

End Driving.

(** ** Building the header *)

Section Construction.

Lemma valid_true (m : PinMapping) :
  valid m = true ->
  List.length (Address m) = 16%nat
  /\ List.length (Data m) = 8%nat
  /\ contiguous (firstn 15 (Address m))
  /\ contiguous (Data m)
  /\ NoDup (lines m).
Proof.
  unfold valid. rewrite !andb_true_iff, !Nat.eqb_eq.
  rewrite !ascending_contiguous, distinct_NoDup. tauto.
Qed.

Lemma not_contiguous_invalid (m : PinMapping) :
  address_not_contiguous m -> valid m = false.
Proof.
  intros [i [Hi Hne]]. apply not_true_iff_false. intros Hv.
  destruct (valid_true m Hv) as [Hlen [_ [Hc _]]].
  apply Hne. specialize (Hc i).
  rewrite length_firstn, Hlen, !nth_firstn in Hc.
  destruct (Nat.ltb_spec (S i) 15); [|lia].
  destruct (Nat.ltb_spec i 15); [|lia].
  apply Hc. simpl. lia.
Qed.

Lemma collision_invalid (m : PinMapping) :
  collides m -> valid m = false.
Proof.
  intros [i [j [Hij Heq]]]. apply not_true_iff_false. intros Hv.
  destruct (valid_true m Hv) as [_ [_ [_ [_ Hnd]]]].
  rewrite (NoDup_nth (lines m) 0) in Hnd.
  specialize (Hnd i j). lia.
Qed.

Lemma header_valid : valid header = true.
Proof. reflexivity. Qed.

(** The header under src/ is the header text of its own mapping. *)
Lemma header_text_header : header_text header = pin_definitions_h.
Proof. reflexivity. Qed.

(** A header made of definitions only builds, whatever it defines. *)
Lemma build_defines (t : list (string * Z)) : forall env,
  build (map (fun e => define (fst e) (snd e)) t) env = Some (env ++ t).
Proof.
  induction t as [|[name value] t IH]; intros env; cbn [map build fst snd].
  - now rewrite app_nil_r.
  - rewrite IH, <- app_assoc. reflexivity.
Qed.

Lemma rw_on_a15_collides : collides rw_on_a15.
Proof. exists 15%nat, 16%nat. split; [simpl; lia | reflexivity]. Qed.

(** C7, as stated, fails: a header of the form of pin_definitions.h is not
    rejected when it gives RW the line of A15. *)
Lemma build_does_not_reject :
  ~ (forall m : PinMapping,
       address_not_contiguous m \/ collides m ->
       build (header_text m) [] = None).
Proof.
  intros H. specialize (H rw_on_a15 (or_intror rw_on_a15_collides)).
  unfold header_text in H. rewrite build_defines in H. discriminate H.
Qed.

(** C7, amended: the header holds no build-time assertion. It is made of
    [#define] lines only, so a header of its form builds for every choice
    of line indices and yields exactly the macros it spells out. The
    indices it does fix satisfy the structural invariants: address lines
    0 to 14 are contiguous and no Address, Control or Data line index is
    used twice. *)
Theorem header_builds_unchecked :
  forallb is_define pin_definitions_h = true
  /\ (forall m : PinMapping, build (header_text m) [] = Some (table_of m))
  /\ build pin_definitions_h [] = Some pin_table
  /\ valid header = true
  /\ ~ address_not_contiguous header
  /\ ~ collides header.
Proof.
  split; [reflexivity|]. split; [|split; [reflexivity|]].
  - intros m. unfold header_text. now rewrite build_defines.
  - split; [reflexivity|]. split; intros H.
    + apply not_contiguous_invalid in H. rewrite header_valid in H.
      discriminate H.
    + apply collision_invalid in H. rewrite header_valid in H.
      discriminate H.
Qed.

End Construction.

(** ** The lines the header uses *)

Section Occupancy.

Lemma In_address_pins (p : Z) : In p address_pins <-> 0 <= p <= 14 \/ p = 26.
Proof.
  rewrite address_pins_split, in_app_iff, low_address_pins_zseq, In_zseq.
  unfold A15. simpl. lia.
Qed.

Lemma In_control_pins (p : Z) : In p control_pins <-> p = 25 \/ p = 27.
Proof. unfold control_pins, RW, HALT. simpl. lia. Qed.

Lemma all_pins_NoDup : NoDup all_pins.
Proof. apply distinct_NoDup. reflexivity. Qed.

(** X1: the pin groups the header defines are the ones its opening
    comment documents: a line belongs to an address signal exactly when it
    is GPIO 0-14 or 26, to a control signal exactly when it is GPIO 25 or
    27, and to a data signal exactly when it is GPIO 15-22. *)
Theorem groups_match_header_comment (p : Z) :
  (In p address_pins <-> in_ranges p documented_address = true)
  /\ (In p control_pins <-> in_ranges p documented_control = true)
  /\ (In p data_pins <-> in_ranges p documented_data = true).
Proof.
  rewrite In_address_pins, In_control_pins, In_data_pins.
  unfold in_ranges, documented_address, documented_control, documented_data.
  cbn [existsb fst snd].
  rewrite !orb_false_r, !orb_true_iff, !andb_true_iff, !Z.leb_le. lia.
Qed.

(** X2: the header uses the lines 0 to 22 and 25 to 27 and no other; each
    of them carries exactly one signal, and of the lines 0 to 27 only 23
    and 24 carry none. *)
Theorem assigned_lines (p : Z) :
  (In p all_pins <-> 0 <= p <= 22 \/ 25 <= p <= 27)
  /\ (In p all_pins -> count_occ Z.eq_dec all_pins p = 1%nat)
  /\ (0 <= p <= 27 -> (~ In p all_pins <-> p = 23 \/ p = 24)).
Proof.
  assert (Hin : In p all_pins <-> 0 <= p <= 22 \/ 25 <= p <= 27).
  { unfold all_pins.
    rewrite !in_app_iff, In_address_pins, In_control_pins, In_data_pins.
    lia. }
  split; [exact Hin|]. split.
  - apply (proj1 (NoDup_count_occ' Z.eq_dec all_pins) all_pins_NoDup).
  - intros Hp. rewrite Hin. lia.
Qed.

Lemma assigned_lines_witness :
  In 26 all_pins
  /\ count_occ Z.eq_dec all_pins 26 = 1%nat
  /\ 0 <= 24 <= 27
  /\ ~ In 24 all_pins.
Proof.
  assert (H26 : In 26 all_pins)
    by (apply (proj1 (assigned_lines 26)); lia).
  split; [exact H26|]. split.
  - exact (proj1 (proj2 (assigned_lines 26)) H26).
  - split; [lia|].
    apply (proj2 (proj2 (assigned_lines 24)) ltac:(lia)). lia.
Defined.

End Occupancy.
